(** * neo2nix: the NIX writer of [neonix/io/nixio.py]

    A shallow embedding of [NixIO.write_block], [NixIO.write_segment] and
    [NixIO._equals], and the properties of the mapper/writer specification
    checked against it.

    Python objects are duck-typed; the embedding keeps the two object
    families apart (Neo objects on the source side, NIX objects on the
    target side) and gives each the attributes that the module reads through
    [getattr]: an attribute that is absent, or whose value is [None], is
    [None] here as well, which is exactly what [getattr(o, attr, None)]
    observes. *)

From stdpp Require Import base option list strings.

Open Scope string_scope.

(** ** Exceptions and results *)

Inductive exn : Type :=
  | TypeError
  | AttributeError
  | IndexError
  | LookupError (msg : string).

Inductive outcome (A : Type) : Type :=
  | Returns (a : A)
  | Raises (e : exn).

Arguments Returns {A} a.
Arguments Raises {A} e.

(** ** The source data model (Neo) *)

Module Neo.

(** A Neo object as [_equals] sees it: [name], [description], and the
    child collection [segments] (a [Block] has one, a [Segment] has not). *)
#[local] Unset Elimination Schemes.
Inductive obj : Type :=
  Obj { name : option string;
        description : option string;
        segments : option (list obj) }.

(** [getattr(neo_obj, attr, None)] for the scalar attributes. *)
Definition getattr (o : obj) (attr : string) : option string :=
  if String.eqb attr "name" then name o
  else if String.eqb attr "description" then description o
  else None.

(** [getattr(neo_obj, attr, None)] for the child collections. *)
Definition getattr_container (o : obj) (attr : string) : option (list obj) :=
  if String.eqb attr "segments" then segments o else None.

(** Height of the object tree (0 for an object without collection). *)
Fixpoint height (o : obj) : nat :=
  match o with
  | Obj _ _ None => 0
  | Obj _ _ (Some cs) => S (foldr (fun c acc => Nat.max (height c) acc) 0 cs)
  end.

End Neo.

(** ** The target data model (NIX) *)

Module Nix.

(** A NIX entity: [name], [type], [definition], and the child collection
    [groups] (a NIX block has one, a NIX group has not). *)
#[local] Unset Elimination Schemes.
Inductive obj : Type :=
  Obj { name : option string;
        type : string;
        definition : option string;
        groups : option (list obj) }.

Definition getattr (o : obj) (attr : string) : option string :=
  if String.eqb attr "name" then name o
  else if String.eqb attr "definition" then definition o
  else None.

Definition getattr_container (o : obj) (attr : string) : option (list obj) :=
  if String.eqb attr "groups" then groups o else None.

Inductive FileMode : Type := ReadOnly | ReadWrite | Overwrite.

End Nix.

(** ** The mapping tables *)

Definition attribute_mappings : list (string * string) :=
  [("name", "name"); ("description", "definition")].

Definition container_mappings : list (string * string) :=
  [("segments", "groups")].

(** ** [NixIO._equals] *)

(** Python's [!=] on attribute values. *)
Definition py_ne (a b : option string) : bool := negb (bool_decide (a = b)).

(** The first loop of [_equals]: [true] when it runs to its end, [false]
    when it hits [return False]. *)
Fixpoint attributes_loop (neo_obj : Neo.obj) (nix_obj : Nix.obj)
    (items : list (string * string)) : bool :=
  match items with
  | [] => true
  | (neo_attr_name, nix_attr_name) :: items' =>
      let neo_attr := Neo.getattr neo_obj neo_attr_name in
      let nix_attr := Nix.getattr nix_obj nix_attr_name in
      if py_ne neo_attr nix_attr then false
      else attributes_loop neo_obj nix_obj items'
  end.

Section ZipLoop.
Context {A B : Type}.
Variable child_equals : A -> B -> outcome bool.

(** [for a, b in zip(as, bs): if not child_equals(a, b): return False],
    followed by the fall-through [return True]. *)
Fixpoint zip_loop (neo_container : list A) (nix_container : list B)
    : outcome bool :=
  match neo_container, nix_container with
  | neo_child_obj :: neo_rest, nix_child_obj :: nix_rest =>
      match child_equals neo_child_obj nix_child_obj with
      | Returns true => zip_loop neo_rest nix_rest
      | Returns false => Returns false
      | Raises e => Raises e
      end
  | _, _ => Returns true
  end.
End ZipLoop.

(** The body of the [if cascade:] block for the one entry of
    [container_mappings], given the function used on the paired children.
    [len(None)] raises [TypeError]. *)
Definition compare_containers {A B : Type} (child_equals : A -> B -> outcome bool)
    (neo_container : option (list A)) (nix_container : option (list B))
    : outcome bool :=
  match neo_container, nix_container with
  | None, None => Returns true
  | Some ns, Some xs =>
      if negb (Nat.eqb (length ns) (length xs)) then Returns false
      else zip_loop child_equals ns xs
  | _, _ => Raises TypeError
  end.

(** [_equals(neo_obj, nix_obj, cascade)]. The recursive call on the paired
    children passes no third argument, so [cascade] takes its default
    [True]. The loop over [container_mappings] is unrolled for its single
    entry [("segments", "groups")]; [_equals_fuel] below keeps the loop. *)
Fixpoint _equals (neo_obj : Neo.obj) (nix_obj : Nix.obj) (cascade : bool)
    {struct neo_obj} : outcome bool :=
  if negb (attributes_loop neo_obj nix_obj attribute_mappings) then Returns false
  else if cascade then
    compare_containers (fun neo_child_obj nix_child_obj =>
                          _equals neo_child_obj nix_child_obj true)
      (Neo.segments neo_obj) (Nix.groups nix_obj)
  else Returns true.

(** The same function with the recursion bounded by a call-depth budget and
    the loop over [container_mappings] kept as a loop: [None] means the
    budget ran out before the call returned. *)
Section FuelLoops.
Variable rec_equals : Neo.obj -> Nix.obj -> bool -> option (outcome bool).

(** The inner [for ... in zip(...)]; [Some (Returns true)] stands for the
    loop running to its end. *)
Fixpoint pairs_loop (neo_container : list Neo.obj)
    (nix_container : list Nix.obj) : option (outcome bool) :=
  match neo_container, nix_container with
  | neo_child_obj :: neo_rest, nix_child_obj :: nix_rest =>
      match rec_equals neo_child_obj nix_child_obj true with
      | None => None
      | Some (Returns true) => pairs_loop neo_rest nix_rest
      | Some (Returns false) => Some (Returns false)
      | Some (Raises e) => Some (Raises e)
      end
  | _, _ => Some (Returns true)
  end.

(** The outer [for ... in container_mappings.items()], then [return True]. *)
Fixpoint containers_loop (neo_obj : Neo.obj) (nix_obj : Nix.obj)
    (items : list (string * string)) : option (outcome bool) :=
  match items with
  | [] => Some (Returns true)
  | (neo_container_name, nix_container_name) :: items' =>
      match Neo.getattr_container neo_obj neo_container_name,
            Nix.getattr_container nix_obj nix_container_name with
      | None, None => containers_loop neo_obj nix_obj items'
      | Some ns, Some xs =>
          if negb (Nat.eqb (length ns) (length xs)) then Some (Returns false)
          else match pairs_loop ns xs with
               | Some (Returns true) => containers_loop neo_obj nix_obj items'
               | r => r
               end
      | _, _ => Some (Raises TypeError)
      end
  end.
End FuelLoops.

Fixpoint _equals_fuel (fuel : nat) (neo_obj : Neo.obj) (nix_obj : Nix.obj)
    (cascade : bool) : option (outcome bool) :=
  match fuel with
  | O => None
  | S fuel' =>
      if negb (attributes_loop neo_obj nix_obj attribute_mappings)
      then Some (Returns false)
      else if cascade then
        containers_loop (_equals_fuel fuel') neo_obj nix_obj container_mappings
      else Some (Returns true)
  end.

(** ** The target store *)

(** Modelled from the spec: the hierarchical store behind [nix.File] is an
    external library, so its operations follow section 6 of the
    specification: [open(path, mode)] with [Overwrite] destroying prior
    content, [close()], creation of a root node and of a child node, each
    with a settable [definition], and enumeration of the root nodes. The
    record is the state of the store at the path of the [NixIO] instance:
    its root nodes in enumeration order and the number of handles that are
    open on it. *)
Record store : Type :=
  Store { blocks : list Nix.obj; open_handles : nat }.

(** Store computations: state passing with Python exceptions; the state at
    the point of a [raise] is kept. *)
Definition M (A : Type) : Type := store -> outcome A * store.

Definition ret {A : Type} (a : A) : M A := fun st => (Returns a, st).

Definition raise {A : Type} (e : exn) : M A := fun st => (Raises e, st).

Definition bind {A B : Type} (m : M A) (k : A -> M B) : M B :=
  fun st =>
    match m st with
    | (Returns a, st') => k a st'
    | (Raises e, st') => (Raises e, st')
    end.

Notation "x <- m ;; k" := (bind m (fun x => k))
  (at level 100, m at next level, right associativity).
Notation "m ;;; k" := (bind m (fun _ => k))
  (at level 100, right associativity).

(** A pure call that may raise, run inside a store computation. *)
Definition lift {A : Type} (r : outcome A) : M A := fun st => (r, st).

(** [for x in xs: body(x)]. *)
Fixpoint for_each {A : Type} (xs : list A) (body : A -> M unit) : M unit :=
  match xs with
  | [] => ret tt
  | x :: xs' => body x ;;; for_each xs' body
  end.

(** Modelled from the spec: [nix.File.open(path, mode)]. *)
Definition File_open (mode : Nix.FileMode) : M unit :=
  fun st =>
    (Returns tt,
     {| blocks := match mode with
                  | Nix.Overwrite => []
                  | _ => blocks st
                  end;
        open_handles := S (open_handles st) |}).

(** Modelled from the spec: [nix_file.close()]. *)
Definition File_close : M unit :=
  fun st =>
    (Returns tt,
     {| blocks := blocks st; open_handles := Nat.pred (open_handles st) |}).

(** Modelled from the spec: [nix_file.blocks], the root nodes in
    enumeration order. *)
Definition File_blocks : M (list Nix.obj) :=
  fun st => (Returns (blocks st), st).

(** Modelled from the spec: [nix_file.create_block(name, type)]; the new
    root has no definition and an empty collection of groups. The result is
    the position of the new root, which stands for the Python reference. *)
Definition create_block (name : option string) (type : string) : M nat :=
  fun st =>
    (Returns (length (blocks st)),
     {| blocks := (blocks st ++ [Nix.Obj name type None (Some [])])%list;
        open_handles := open_handles st |}).

(** [nix_file.blocks[i]]: the reference to the root at position [i]. *)
Definition blocks_getitem (i : nat) : M nat :=
  fun st =>
    match blocks st !! i with
    | Some _ => (Returns i, st)
    | None => (Raises IndexError, st)
    end.

Definition update_block (i : nat) (f : Nix.obj -> Nix.obj) (st : store) : store :=
  {| blocks := alter f i (blocks st); open_handles := open_handles st |}.

(** Modelled from the spec: [nix_block.definition = d] on the root at
    position [i]. *)
Definition set_block_definition (i : nat) (d : option string) : M unit :=
  fun st =>
    (Returns tt,
     update_block i (fun b => Nix.Obj (Nix.name b) (Nix.type b) d (Nix.groups b)) st).

(** Modelled from the spec: [nix_block.create_group(name, type)] on the root
    at position [i]; the group is appended to the root's groups. An entity
    without a collection of groups has no such method. The result is the
    position of the new group under that root. *)
Definition create_group (i : nat) (name : option string) (type : string) : M nat :=
  fun st =>
    match blocks st !! i with
    | None => (Raises IndexError, st)
    | Some b =>
        match Nix.groups b with
        | None => (Raises AttributeError, st)
        | Some gs =>
            (Returns (length gs),
             update_block i
               (fun b => Nix.Obj (Nix.name b) (Nix.type b) (Nix.definition b)
                           (Some (gs ++ [Nix.Obj name type None None])%list)) st)
        end
    end.

(** Modelled from the spec: [nix_group.definition = d] on group [j] of the
    root at position [i]. *)
Definition set_group_definition (i j : nat) (d : option string) : M unit :=
  fun st =>
    (Returns tt,
     update_block i
       (fun b => Nix.Obj (Nix.name b) (Nix.type b) (Nix.definition b)
                   (alter (fun g => Nix.Obj (Nix.name g) (Nix.type g) d (Nix.groups g)) j
                      <$> Nix.groups b)) st).

(** ** [NixIO] *)

Record NixIO : Type := { filename : string }.

(** [str.format] of an attribute value. *)
Definition py_format (v : option string) : string :=
  match v with
  | Some s => s
  | None => "None"
  end.

Definition lookup_error_message (parent_name segment_name : option string)
    (file : string) : string :=
  String.append "Parent block with name '"
   (String.append (py_format parent_name)
   (String.append "' for segment with name '"
   (String.append (py_format segment_name)
   (String.append "' does not exist in file '"
   (String.append file "'."))))).

(** The body of the [if] inside the loop of [write_segment]: the root is
    re-read as [nix_file.blocks[0]], the group is created under it and its
    definition is set. *)
Definition create_under_first_root (nix_name : option string) (nix_type : string)
    (nix_definition : option string) : M unit :=
  nix_block <- blocks_getitem 0 ;;
  nix_group <- create_group nix_block nix_name nix_type ;;
  set_group_definition nix_block nix_group nix_definition.

(** The [for nix_block in nix_file.blocks: ... else: raise LookupError]
    statement of [write_segment], over the enumeration of the roots; the
    [break] leaves the loop after the first match. *)
Fixpoint blocks_loop (self : NixIO) (segment parent_block : Neo.obj)
    (nix_blocks : list Nix.obj) : M unit :=
  match nix_blocks with
  | [] =>
      raise (LookupError (lookup_error_message (Neo.name parent_block)
                            (Neo.name segment) (filename self)))
  | nix_block :: rest =>
      matched <- lift (_equals parent_block nix_block false) ;;
      if (matched : bool) then
        create_under_first_root (Neo.name segment) "neo.segment"
          (Neo.description segment)
      else blocks_loop self segment parent_block rest
  end.

(** [NixIO.write_segment(self, segment, parent_block, cascade)]; [cascade]
    is not used by the body. *)
Definition write_segment (self : NixIO) (segment parent_block : Neo.obj)
    (cascade : bool) : M unit :=
  File_open Nix.ReadWrite ;;;
  nix_blocks <- File_blocks ;;
  blocks_loop self segment parent_block nix_blocks ;;;
  File_close.

(** [NixIO.write_block(self, neo_block, cascade)]. Reading the [segments] of
    an object that has none raises [AttributeError]. *)
Definition write_block (self : NixIO) (neo_block : Neo.obj) (cascade : bool)
    : M unit :=
  let nix_name := Neo.name neo_block in
  let nix_type := "neo.block" in
  let nix_definition := Neo.description neo_block in
  File_open Nix.Overwrite ;;;
  nix_block <- create_block nix_name nix_type ;;
  set_block_definition nix_block nix_definition ;;;
  (if cascade then
     match Neo.segments neo_block with
     | None => raise AttributeError
     | Some segments =>
         for_each segments (fun segment => write_segment self segment neo_block true)
     end
   else ret tt) ;;;
  File_close.

(** ** The equivalence of the specification *)

(** Every mapped attribute pair holds equal values. *)
Definition attributes_match (neo_obj : Neo.obj) (nix_obj : Nix.obj) : Prop :=
  Neo.name neo_obj = Nix.name nix_obj /\
  Neo.description neo_obj = Nix.definition nix_obj.

Definition attributes_matchb (neo_obj : Neo.obj) (nix_obj : Nix.obj) : bool :=
  bool_decide (Neo.name neo_obj = Nix.name nix_obj) &&
  bool_decide (Neo.description neo_obj = Nix.definition nix_obj).

(** The predicate [equivalent] in the words of the specification: with
    [cascade], one absent collection is a mismatch and the paired children
    are compared by a non-cascading call, that is on their mapped
    attributes only. *)
Definition equivalent_spec (sourceNode : Neo.obj) (targetNode : Nix.obj)
    (cascade : bool) : bool :=
  attributes_matchb sourceNode targetNode &&
  (if cascade then
     match Neo.segments sourceNode, Nix.groups targetNode with
     | None, None => true
     | Some ns, Some xs =>
         Nat.eqb (length ns) (length xs) &&
         forallb (fun p => attributes_matchb (fst p) (snd p)) (zip ns xs)
     | _, _ => false
     end
   else true).

(** Full-depth equivalence: the attributes match at every level, a
    collection is present on both sides or on neither, and paired
    collections have the same length. *)
#[local] Unset Elimination Schemes.
Inductive deep_equivalent : Neo.obj -> Nix.obj -> Prop :=
  | deep_leaf neo_obj nix_obj :
      attributes_match neo_obj nix_obj ->
      Neo.segments neo_obj = None ->
      Nix.groups nix_obj = None ->
      deep_equivalent neo_obj nix_obj
  | deep_node neo_obj nix_obj ns xs :
      attributes_match neo_obj nix_obj ->
      Neo.segments neo_obj = Some ns ->
      Nix.groups nix_obj = Some xs ->
      Forall2 deep_equivalent ns xs ->
      deep_equivalent neo_obj nix_obj.
#[local] Set Elimination Schemes.

(** The group that [write_segment] creates for a segment. *)
Definition group_of_segment (segment : Neo.obj) : Nix.obj :=
  Nix.Obj (Neo.name segment) "neo.segment" (Neo.description segment) None.

(** A root with one more group at the end of its collection. *)
Definition with_group (root : Nix.obj) (gs : list Nix.obj) (g : Nix.obj) : Nix.obj :=
  Nix.Obj (Nix.name root) (Nix.type root) (Nix.definition root) (Some (gs ++ [g])%list).

(** ** Objects used in the examples *)

Definition segment (n d : string) : Neo.obj := Neo.Obj (Some n) (Some d) None.

Definition block_B1 : Neo.obj :=
  Neo.Obj (Some "B1") (Some "d1") (Some [segment "S1" "x"; segment "S2" "y"]).

Definition nix_group (n d : string) : Nix.obj :=
  Nix.Obj (Some n) "neo.segment" (Some d) None.

Definition nix_block (n d : string) (gs : list Nix.obj) : Nix.obj :=
  Nix.Obj (Some n) "neo.block" (Some d) (Some gs).

Definition io : NixIO := {| filename := "out.h5" |}.

(** A source tree and a target tree that agree on every attribute one level
    down and differ only below the children: the child ["S1"] holds one
    grandchild on the source side and none on the target side. *)
Definition nested_source : Neo.obj :=
  Neo.Obj (Some "B1") (Some "d1")
    (Some [Neo.Obj (Some "S1") (Some "x") (Some [segment "G1" "g"])]).

Definition nested_target : Nix.obj :=
  nix_block "B1" "d1" [Nix.Obj (Some "S1") "neo.segment" (Some "x") (Some [])].

(** A Neo block without segments against a NIX group, which has no
    [groups] collection. *)
Definition empty_block : Neo.obj := Neo.Obj (Some "B1") (Some "d1") (Some []).

(** Stores used in the examples. *)
Definition empty_store : store := Store [] 0.

Definition two_root_store : store :=
  Store [nix_block "B0" "d0" []; nix_block "B1" "d1" []] 0.

(** Whether a source object has a [segments] collection. *)
Definition has_collection (s : Neo.obj) : bool :=
  bool_decide (is_Some (Neo.segments s)).

(** The same target tree with every [type] tag rewritten by [f]. *)
Fixpoint retag (f : string -> string) (nix_obj : Nix.obj) : Nix.obj :=
  match nix_obj with
  | Nix.Obj n t d g => Nix.Obj n (f t) d (option_map (map (retag f)) g)
  end.

(** Two segments that [write_segment] cannot tell apart: the same name and
    the same description. *)
Definition same_labels (s s' : Neo.obj) : Prop :=
  Neo.name s = Neo.name s' /\ Neo.description s = Neo.description s'.

(** The shape of everything [write_block] leaves in a store: a root tagged
    ["neo.block"] whose groups are tagged ["neo.segment"] and have no
    collection of their own. *)
Definition written_root (root : Nix.obj) : Prop :=
  Nix.type root = "neo.block" /\
  exists gs, Nix.groups root = Some gs /\
    Forall (fun g => Nix.type g = "neo.segment" /\ Nix.groups g = None) gs.

(** What [write_segment] may do to a root: nothing, or one more group at
    the end of its collection. *)
Definition grown_by (segment : Neo.obj) (b b' : Nix.obj) : Prop :=
  Nix.name b' = Nix.name b /\
  Nix.type b' = Nix.type b /\
  Nix.definition b' = Nix.definition b /\
  (Nix.groups b' = Nix.groups b \/
   exists gs, Nix.groups b = Some gs /\
     Nix.groups b' = Some (gs ++ [group_of_segment segment])%list).

(** ** Facts about [_equals] *)

(** Induction on object trees, with the hypothesis for every child. *)
Lemma neo_obj_ind (P : Neo.obj -> Prop) :
  (forall n d, P (Neo.Obj n d None)) ->
  (forall n d cs, Forall P cs -> P (Neo.Obj n d (Some cs))) ->
  forall o, P o.
Proof.
  intros Hleaf Hnode. fix IH 1. intros [n d [cs|]].
  - apply Hnode. induction cs as [|c cs IHcs]; constructor.
    + apply IH.
    + exact IHcs.
  - apply Hleaf.
Qed.

Lemma attributes_loop_mappings neo_obj nix_obj :
  attributes_loop neo_obj nix_obj attribute_mappings
  = attributes_matchb neo_obj nix_obj.
Proof.
  unfold attributes_matchb, attribute_mappings, attributes_loop, py_ne.
  cbn. destruct (bool_decide (Neo.name neo_obj = Nix.name nix_obj)); cbn.
  - destruct (bool_decide (Neo.description neo_obj = Nix.definition nix_obj));
      reflexivity.
  - reflexivity.
Qed.

Lemma attributes_matchb_true neo_obj nix_obj :
  attributes_matchb neo_obj nix_obj = true <-> attributes_match neo_obj nix_obj.
Proof.
  unfold attributes_matchb, attributes_match.
  rewrite andb_true_iff, !bool_decide_eq_true. reflexivity.
Qed.

Lemma attributes_matchb_false neo_obj nix_obj :
  attributes_matchb neo_obj nix_obj = false <-> ~ attributes_match neo_obj nix_obj.
Proof.
  rewrite <- attributes_matchb_true.
  destruct (attributes_matchb neo_obj nix_obj); split; congruence.
Qed.

(** The body of [_equals], one call deep. *)
Lemma _equals_unfold neo_obj nix_obj cascade :
  _equals neo_obj nix_obj cascade =
  if negb (attributes_matchb neo_obj nix_obj) then Returns false
  else if cascade then
    compare_containers (fun n x => _equals n x true)
      (Neo.segments neo_obj) (Nix.groups nix_obj)
  else Returns true.
Proof.
  rewrite <- attributes_loop_mappings. destruct neo_obj; reflexivity.
Qed.

Lemma zip_loop_true {A B : Type} (f : A -> B -> outcome bool) ns xs :
  length ns = length xs ->
  (zip_loop f ns xs = Returns true <-> Forall2 (fun n x => f n x = Returns true) ns xs).
Proof.
  revert xs. induction ns as [|n ns IH]; intros [|x xs] Hlen;
    simpl in *; try discriminate.
  - split; [constructor | reflexivity].
  - injection Hlen as Hlen. specialize (IH xs Hlen).
    destruct (f n x) as [[|]|e] eqn:E.
    + rewrite IH. split.
      * intros H. constructor; assumption.
      * intros H. inversion H; subst. assumption.
    + split; [discriminate|]. intros H. inversion H; subst. congruence.
    + split; [discriminate|]. intros H. inversion H; subst. congruence.
Qed.

Lemma compare_containers_true {A B : Type} (f : A -> B -> outcome bool) ns xs :
  compare_containers f (Some ns) (Some xs) = Returns true
  <-> Forall2 (fun n x => f n x = Returns true) ns xs.
Proof.
  unfold compare_containers.
  destruct (Nat.eqb (length ns) (length xs)) eqn:E; simpl.
  - apply Nat.eqb_eq in E. apply zip_loop_true, E.
  - apply Nat.eqb_neq in E. split; [discriminate|].
    intros H. apply Forall2_length in H. contradiction.
Qed.

(** *** Non-cascading comparison *)

Lemma equals_no_cascade neo_obj nix_obj :
  _equals neo_obj nix_obj false = Returns (attributes_matchb neo_obj nix_obj).
Proof.
  rewrite _equals_unfold. destruct (attributes_matchb neo_obj nix_obj); reflexivity.
Qed.

(** C8. [_equals(neo_obj, nix_obj, False)] always returns a boolean; it is
    [True] exactly when the names are equal and the source description
    equals the target definition, and the children of either object have no
    influence on the result. *)
Theorem equals_no_cascade_attributes_only (neo_obj : Neo.obj) (nix_obj : Nix.obj) :
  (_equals neo_obj nix_obj false = Returns true <->
     Neo.name neo_obj = Nix.name nix_obj /\
     Neo.description neo_obj = Nix.definition nix_obj) /\
  (_equals neo_obj nix_obj false = Returns false <->
     ~ (Neo.name neo_obj = Nix.name nix_obj /\
        Neo.description neo_obj = Nix.definition nix_obj)) /\
  (forall segments groups,
     _equals (Neo.Obj (Neo.name neo_obj) (Neo.description neo_obj) segments)
             (Nix.Obj (Nix.name nix_obj) (Nix.type nix_obj)
                      (Nix.definition nix_obj) groups) false
     = _equals neo_obj nix_obj false).
Proof.
  fold (attributes_match neo_obj nix_obj).
  split; [|split].
  - rewrite equals_no_cascade, <- attributes_matchb_true.
    split; congruence.
  - rewrite equals_no_cascade, <- attributes_matchb_false.
    split; congruence.
  - intros segments groups. rewrite !_equals_unfold. reflexivity.
Qed.

(** *** Cascading comparison *)

(** C10. When neither object has the mapped collection, the cascading
    comparison skips the container part: it gives what the non-cascading
    one gives, and is [True] exactly when the mapped attributes match. *)
Theorem equals_cascade_without_collections (neo_obj : Neo.obj) (nix_obj : Nix.obj) :
  Neo.segments neo_obj = None ->
  Nix.groups nix_obj = None ->
  _equals neo_obj nix_obj true = _equals neo_obj nix_obj false /\
  (_equals neo_obj nix_obj true = Returns true <->
     attributes_match neo_obj nix_obj).
Proof.
  intros Hs Hg.
  assert (E : _equals neo_obj nix_obj true = _equals neo_obj nix_obj false).
  { rewrite !_equals_unfold, Hs, Hg. reflexivity. }
  split; [exact E|].
  rewrite E, equals_no_cascade, <- attributes_matchb_true.
  split; congruence.
Qed.

Lemma equals_cascade_without_collections_witness :
  _equals (segment "S1" "x") (nix_group "S1" "x") true
  = _equals (segment "S1" "x") (nix_group "S1" "x") false /\
  (_equals (segment "S1" "x") (nix_group "S1" "x") true = Returns true <->
     attributes_match (segment "S1" "x") (nix_group "S1" "x")).
Proof.
  apply (equals_cascade_without_collections (segment "S1" "x") (nix_group "S1" "x"));
    reflexivity.
Defined.

(** With exactly one of the two collections absent and matching
    attributes, [len(None)] is evaluated and the call raises. *)
Lemma equals_one_sided_raises neo_obj nix_obj :
  attributes_match neo_obj nix_obj ->
  (is_Some (Neo.segments neo_obj) /\ Nix.groups nix_obj = None) \/
  (Neo.segments neo_obj = None /\ is_Some (Nix.groups nix_obj)) ->
  _equals neo_obj nix_obj true = Raises TypeError.
Proof.
  intros Ha H. rewrite _equals_unfold.
  apply attributes_matchb_true in Ha. rewrite Ha. simpl.
  destruct H as [[[ns Hs] Hg]|[Hs [xs Hg]]]; rewrite Hs, Hg; reflexivity.
Qed.

(** C3. A source object with a [segments] collection compared with a
    target object without [groups], the mapped attributes being equal: the
    call does not return [False], it raises [TypeError]. *)
Theorem equals_one_sided_collection_raises :
  attributes_match empty_block (nix_group "B1" "d1") /\
  Neo.segments empty_block = Some [] /\
  Nix.groups (nix_group "B1" "d1") = None /\
  _equals empty_block (nix_group "B1" "d1") true = Raises TypeError.
Proof. repeat split. Qed.

(** C1, the statement of the specification refuted: on [nested_source] and
    [nested_target] both collections are present, the one child pair agrees
    on its mapped attributes, so the depth-limited predicate holds, and yet
    [_equals] returns [False], because the children were compared on their
    own collections. *)
Lemma equals_children_cascade_counterexample :
  is_Some (Neo.segments nested_source) /\
  is_Some (Nix.groups nested_target) /\
  equivalent_spec nested_source nested_target true = true /\
  _equals nested_source nested_target true = Returns false /\
  _equals nested_source nested_target true
  <> Returns (equivalent_spec nested_source nested_target true).
Proof.
  split; [eexists; reflexivity|]. split; [eexists; reflexivity|].
  split; [reflexivity|]. split; [reflexivity|]. discriminate.
Qed.

Lemma Forall2_pointwise_iff {A B : Type} (P Q : A -> B -> Prop) (ns : list A) :
  Forall (fun n => forall x, P n x <-> Q n x) ns ->
  forall xs, Forall2 P ns xs <-> Forall2 Q ns xs.
Proof.
  induction 1 as [|n ns Hn _ IH]; intros xs.
  - split; intros H; inversion H; constructor.
  - split; intros H; inversion H; subst; constructor;
      solve [apply Hn; assumption | apply IH; assumption].
Qed.

Lemma equals_true_deep neo_obj :
  forall nix_obj,
    _equals neo_obj nix_obj true = Returns true <-> deep_equivalent neo_obj nix_obj.
Proof.
  induction neo_obj as [n d|n d cs IH] using neo_obj_ind; intros nix_obj;
    rewrite _equals_unfold; cbn [Neo.segments];
    (destruct (attributes_matchb _ nix_obj) eqn:E; cbn [negb];
     [apply attributes_matchb_true in E | apply attributes_matchb_false in E]);
    try (split; [discriminate|]; intros H; inversion H; subst; contradiction).
  - destruct (Nix.groups nix_obj) as [xs|] eqn:G; cbn [compare_containers].
    + split; [discriminate|].
      intros H; inversion H; subst; cbn in *; congruence.
    + split; [|reflexivity]. intros _. apply deep_leaf; auto.
  - destruct (Nix.groups nix_obj) as [xs|] eqn:G.
    + rewrite compare_containers_true.
      rewrite (Forall2_pointwise_iff _ deep_equivalent cs IH xs). split.
      * intros H. eapply deep_node; eauto.
      * intros H. inversion H as [? ? ? Hs|? ? ns xs' ? Hs Hg HF]; subst;
          cbn in *; [discriminate|].
        injection Hs as <-. rewrite G in Hg. injection Hg as <-. exact HF.
    + cbn [compare_containers]. split; [discriminate|].
      intros H; inversion H; subst; cbn in *; congruence.
Qed.

(** C1, amended. With both collections present, [_equals(..., True)]
    returns [True] exactly when the mapped attributes match and the
    collections pair up, in order and with equal lengths, into children on
    which the cascading call [_equals(child, child, True)] returns [True];
    over the whole tree this is full-depth equivalence. *)
Theorem equals_cascade_children_cascade
    (neo_obj : Neo.obj) (nix_obj : Nix.obj) (ns : list Neo.obj) (xs : list Nix.obj) :
  Neo.segments neo_obj = Some ns ->
  Nix.groups nix_obj = Some xs ->
  (_equals neo_obj nix_obj true = Returns true <->
     attributes_match neo_obj nix_obj /\
     Forall2 (fun n x => _equals n x true = Returns true) ns xs) /\
  (_equals neo_obj nix_obj true = Returns true <->
     deep_equivalent neo_obj nix_obj).
Proof.
  intros Hs Hg. split; [|apply equals_true_deep].
  rewrite _equals_unfold, Hs, Hg.
  destruct (attributes_matchb neo_obj nix_obj) eqn:E; cbn [negb].
  - apply attributes_matchb_true in E. rewrite compare_containers_true. tauto.
  - apply attributes_matchb_false in E. split; [discriminate|tauto].
Qed.

Lemma equals_cascade_children_cascade_witness :
  (_equals nested_source nested_target true = Returns true <->
     attributes_match nested_source nested_target /\
     Forall2 (fun n x => _equals n x true = Returns true)
       [Neo.Obj (Some "S1") (Some "x") (Some [segment "G1" "g"])]
       [Nix.Obj (Some "S1") "neo.segment" (Some "x") (Some [])]) /\
  (_equals nested_source nested_target true = Returns true <->
     deep_equivalent nested_source nested_target).
Proof.
  apply (equals_cascade_children_cascade nested_source nested_target); reflexivity.
Defined.

(** *** Termination *)

Lemma height_children_le (cs : list Neo.obj) :
  Forall (fun c => Neo.height c <= foldr (fun c acc => Nat.max (Neo.height c) acc) 0 cs) cs.
Proof.
  induction cs as [|c cs IH]; constructor; cbn [foldr].
  - lia.
  - eapply Forall_impl; [exact IH|]. cbn beta. intros x Hx. lia.
Qed.

Lemma pairs_loop_zip_loop rec_equals (f : Neo.obj -> Nix.obj -> outcome bool) ns :
  Forall (fun n => forall x, rec_equals n x true = Some (f n x)) ns ->
  forall xs, pairs_loop rec_equals ns xs = Some (zip_loop f ns xs).
Proof.
  induction 1 as [|n ns Hn _ IH]; intros [|x xs]; cbn [pairs_loop zip_loop];
    try reflexivity.
  rewrite Hn. destruct (f n x) as [[|]|e]; [apply IH | reflexivity | reflexivity].
Qed.

(** The loop over [container_mappings] has one round. *)
Lemma containers_loop_mappings rec_equals neo_obj nix_obj :
  containers_loop rec_equals neo_obj nix_obj container_mappings =
  match Neo.segments neo_obj, Nix.groups nix_obj with
  | None, None => Some (Returns true)
  | Some ns, Some xs =>
      if negb (Nat.eqb (length ns) (length xs)) then Some (Returns false)
      else pairs_loop rec_equals ns xs
  | _, _ => Some (Raises TypeError)
  end.
Proof.
  unfold container_mappings. cbn [containers_loop].
  change (Neo.getattr_container neo_obj "segments") with (Neo.segments neo_obj).
  change (Nix.getattr_container nix_obj "groups") with (Nix.groups nix_obj).
  destruct (Neo.segments neo_obj) as [ns|], (Nix.groups nix_obj) as [xs|];
    try reflexivity.
  destruct (negb (Nat.eqb (length ns) (length xs))); [reflexivity|].
  destruct (pairs_loop rec_equals ns xs) as [[[|]|e]|]; reflexivity.
Qed.

Lemma equals_fuel_enough neo_obj :
  forall nix_obj cascade k,
    _equals_fuel (S (Neo.height neo_obj) + k) neo_obj nix_obj cascade
    = Some (_equals neo_obj nix_obj cascade).
Proof.
  induction neo_obj as [n d|n d cs IH] using neo_obj_ind; intros nix_obj cascade k;
    rewrite _equals_unfold; cbn [Nat.add _equals_fuel];
    rewrite attributes_loop_mappings;
    (destruct (attributes_matchb _ nix_obj); cbn [negb]; [|reflexivity]);
    (destruct cascade; [|reflexivity]);
    rewrite containers_loop_mappings; cbn [Neo.segments compare_containers].
  - destruct (Nix.groups nix_obj); reflexivity.
  - destruct (Nix.groups nix_obj) as [xs|]; [|reflexivity].
    destruct (negb (Nat.eqb (length cs) (length xs))); [reflexivity|].
    apply pairs_loop_zip_loop.
    pose proof (height_children_le cs) as Hle.
    rewrite Forall_forall in IH, Hle. apply Forall_forall. intros c Hc x.
    specialize (Hle c Hc).
    replace (Neo.height (Neo.Obj n d (Some cs)) + k)
      with (S (Neo.height c) + (Neo.height (Neo.Obj n d (Some cs)) - S (Neo.height c) + k))
      by (cbn [Neo.height]; lia).
    apply IH, Hc.
Qed.

(** C9. [_equals] terminates on every pair of object trees: a call-depth
    budget above the height of the source tree is never exhausted, whatever
    the target tree and the [cascade] flag, and the call then gives the
    result of the structural recursion (each recursive call is on a child of
    the source object, with [cascade] enabled). *)
Theorem equals_terminates (neo_obj : Neo.obj) (nix_obj : Nix.obj)
    (cascade : bool) (extra : nat) :
  _equals_fuel (S (Neo.height neo_obj) + extra) neo_obj nix_obj cascade
  = Some (_equals neo_obj nix_obj cascade).
Proof. apply equals_fuel_enough. Qed.

(** ** Facts about the writer *)

Lemma alter_last {A : Type} (f : A -> A) (l : list A) (x : A) :
  alter f (length l) (l ++ [x])%list = (l ++ [f x])%list.
Proof.
  replace (length l) with (length l + 0) by lia.
  rewrite alter_app_r. reflexivity.
Qed.

(** What the matched branch does to a store whose first root has a
    collection of groups. *)
Lemma create_under_first_root_spec nix_name nix_type nix_definition b gs rest h :
  Nix.groups b = Some gs ->
  create_under_first_root nix_name nix_type nix_definition (Store (b :: rest) h)
  = (Returns tt,
     Store (with_group b gs (Nix.Obj nix_name nix_type nix_definition None) :: rest) h).
Proof.
  intros Hg.
  unfold create_under_first_root, bind, blocks_getitem, create_group,
    set_group_definition, update_block, with_group.
  cbn. rewrite Hg. cbn. rewrite alter_last. reflexivity.
Qed.

(** The loop stops at the first root whose attributes match. *)
Lemma blocks_loop_found self segment parent_block nix_blocks st :
  Exists (attributes_match parent_block) nix_blocks ->
  blocks_loop self segment parent_block nix_blocks st
  = create_under_first_root (Neo.name segment) "neo.segment"
      (Neo.description segment) st.
Proof.
  induction nix_blocks as [|b bs IH]; intros H; [inversion H|].
  cbn [blocks_loop]. unfold bind at 1, lift. rewrite equals_no_cascade.
  destruct (attributes_matchb parent_block b) eqn:E; [reflexivity|].
  apply attributes_matchb_false in E.
  apply IH. inversion H; subst; [contradiction|assumption].
Qed.

(** Without a match the loop reaches its [else] clause. *)
Lemma blocks_loop_not_found self segment parent_block nix_blocks st :
  Forall (fun b => _equals parent_block b false <> Returns true) nix_blocks ->
  blocks_loop self segment parent_block nix_blocks st
  = (Raises (LookupError (lookup_error_message (Neo.name parent_block)
                            (Neo.name segment) (filename self))), st).
Proof.
  induction 1 as [|b bs Hb _ IH]; [reflexivity|].
  cbn [blocks_loop]. unfold bind at 1, lift.
  rewrite equals_no_cascade in *.
  destruct (attributes_matchb parent_block b); [congruence|apply IH].
Qed.

(** A successful [write_segment]: some root matches, the group goes under
    the root at position 0, and the handle is closed again. *)
Lemma write_segment_found self segment parent_block cascade b gs rest h :
  Exists (attributes_match parent_block) (b :: rest) ->
  Nix.groups b = Some gs ->
  write_segment self segment parent_block cascade (Store (b :: rest) h)
  = (Returns tt, Store (with_group b gs (group_of_segment segment) :: rest) h).
Proof.
  intros Hex Hg. unfold write_segment, bind at 1 2 3, File_open, File_blocks.
  cbn [blocks open_handles].
  rewrite blocks_loop_found by exact Hex.
  rewrite (create_under_first_root_spec _ _ _ b gs rest (S h) Hg).
  reflexivity.
Qed.

(** The failing [write_segment]: the roots are as before, and the handle
    opened by the call is still open when the exception leaves it. *)
Lemma write_segment_not_found self segment parent_block cascade st :
  Forall (fun b => _equals parent_block b false <> Returns true) (blocks st) ->
  write_segment self segment parent_block cascade st
  = (Raises (LookupError (lookup_error_message (Neo.name parent_block)
                            (Neo.name segment) (filename self))),
     Store (blocks st) (S (open_handles st))).
Proof.
  intros H. unfold write_segment, bind at 1 2 3, File_open, File_blocks.
  cbn [blocks open_handles].
  rewrite blocks_loop_not_found by exact H. reflexivity.
Qed.

(** *** [write_segment] *)

(** C5. When the parent block is attribute-equivalent to no root of the
    store, [write_segment] raises [LookupError]; its message is the text
    ["Parent block with name '<parent name>' for segment with name
    '<segment name>' does not exist in file '<file name>'."], with a name
    that is [None] printed as ["None"], and the roots of the store are what
    they were before the call. *)
Theorem write_segment_lookup_error (self : NixIO) (segment parent_block : Neo.obj)
    (cascade : bool) (st : store) :
  Forall (fun b => _equals parent_block b false <> Returns true) (blocks st) ->
  exists st',
    write_segment self segment parent_block cascade st
    = (Raises (LookupError
                 ("Parent block with name '"
                  ++ match Neo.name parent_block with
                     | Some parent_name => parent_name
                     | None => "None"
                     end
                  ++ "' for segment with name '"
                  ++ match Neo.name segment with
                     | Some segment_name => segment_name
                     | None => "None"
                     end
                  ++ "' does not exist in file '"
                  ++ filename self
                  ++ "'.")), st') /\
    blocks st' = blocks st.
Proof.
  intros H. eexists. split.
  - rewrite (write_segment_not_found self segment parent_block cascade st H).
    reflexivity.
  - reflexivity.
Qed.

Lemma write_segment_lookup_error_witness :
  exists st',
    write_segment io (segment "S1" "x") block_B1 true
      (Store [nix_block "B0" "d0" []] 0)
    = (Raises (LookupError
                 "Parent block with name 'B1' for segment with name 'S1' does not exist in file 'out.h5'."),
       st') /\
    blocks st' = [nix_block "B0" "d0" []].
Proof.
  apply (write_segment_lookup_error io (segment "S1" "x") block_B1 true
           (Store [nix_block "B0" "d0" []] 0)).
  repeat constructor. discriminate.
Defined.

(** C2. On a store without roots the call raises [LookupError] while the
    handle it opened is still open: one handle more than before the call. *)
Theorem write_segment_error_keeps_handle_open :
  open_handles empty_store = 0 /\
  write_segment io (segment "S1" "x") block_B1 true empty_store
  = (Raises (LookupError
               "Parent block with name 'B1' for segment with name 'S1' does not exist in file 'out.h5'."),
     Store [] 1).
Proof. split; reflexivity. Qed.

(** C4. On a store with two roots of which only the second is equivalent
    to the parent block, the group is created under the first root, and the
    matched root stays without groups. *)
Theorem write_segment_targets_first_root :
  _equals block_B1 (nix_block "B0" "d0" []) false = Returns false /\
  _equals block_B1 (nix_block "B1" "d1" []) false = Returns true /\
  write_segment io (segment "S1" "x") block_B1 true two_root_store
  = (Returns tt,
     Store [nix_block "B0" "d0" [nix_group "S1" "x"]; nix_block "B1" "d1" []] 0).
Proof. repeat split. Qed.

(** *** [write_block] *)

(** C7. Whatever the store held before, [write_block] without cascade
    returns normally and leaves exactly one root, with the name and the
    description of the block as its name and definition, and no children. *)
Theorem write_block_no_cascade_single_root (self : NixIO) (neo_block : Neo.obj)
    (st : store) :
  exists root,
    write_block self neo_block false st = (Returns tt, Store [root] (open_handles st)) /\
    Nix.name root = Neo.name neo_block /\
    Nix.definition root = Neo.description neo_block /\
    Nix.groups root = Some [].
Proof.
  eexists. split; [reflexivity|]. repeat split.
Qed.

(** The loop of [write_block] over the segments, on the store that holds
    the freshly written root. *)
Lemma for_each_write_segment self neo_block segments :
  forall root gs h,
    attributes_match neo_block root ->
    Nix.groups root = Some gs ->
    for_each segments (fun segment => write_segment self segment neo_block true)
      (Store [root] h)
    = (Returns tt,
       Store [Nix.Obj (Nix.name root) (Nix.type root) (Nix.definition root)
                (Some (gs ++ map group_of_segment segments)%list)] h).
Proof.
  induction segments as [|s segments IH]; intros root gs h Ha Hg.
  - cbn. rewrite app_nil_r, <- Hg. destruct root; reflexivity.
  - cbn [for_each]. unfold bind at 1.
    rewrite (write_segment_found self s neo_block true root gs [] h);
      [|left; exact Ha|exact Hg].
    rewrite (IH _ (gs ++ [group_of_segment s])%list); [|exact Ha|reflexivity].
    cbn. rewrite <- app_assoc. reflexivity.
Qed.

Lemma write_block_cascade self neo_block segments st :
  Neo.segments neo_block = Some segments ->
  write_block self neo_block true st
  = (Returns tt,
     Store [Nix.Obj (Neo.name neo_block) "neo.block" (Neo.description neo_block)
              (Some (map group_of_segment segments))] (open_handles st)).
Proof.
  intros Hs. unfold write_block, bind at 1 2 3 4, File_open, create_block,
    set_block_definition, update_block.
  cbn [blocks open_handles length app alter list_alter Nix.name Nix.type Nix.groups].
  rewrite Hs.
  rewrite (for_each_write_segment self neo_block segments _ [] _);
    [reflexivity|split; reflexivity|reflexivity].
Qed.

(** C6. After [write_block] with cascade on a block with segments, the
    store holds a single root; it has as many groups as the block has
    segments, and the group at each position carries the name and the
    description of the segment at that position as name and definition. *)
Theorem write_block_cascade_children (self : NixIO) (neo_block : Neo.obj)
    (segments : list Neo.obj) (st : store) :
  Neo.segments neo_block = Some segments ->
  exists root groups,
    write_block self neo_block true st = (Returns tt, Store [root] (open_handles st)) /\
    Nix.groups root = Some groups /\
    length groups = length segments /\
    forall i segment,
      segments !! i = Some segment ->
      exists group,
        groups !! i = Some group /\
        Nix.name group = Neo.name segment /\
        Nix.definition group = Neo.description segment.
Proof.
  intros Hs. eexists. exists (map group_of_segment segments).
  split; [apply write_block_cascade, Hs|].
  split; [reflexivity|]. split; [apply length_map|].
  intros i segment Hi. exists (group_of_segment segment).
  split; [|split; reflexivity].
  change (map group_of_segment segments) with (group_of_segment <$> segments).
  rewrite list_lookup_fmap, Hi. reflexivity.
Qed.

Lemma write_block_cascade_children_witness :
  exists root groups,
    write_block io block_B1 true two_root_store = (Returns tt, Store [root] 0) /\
    Nix.groups root = Some groups /\
    length groups = 2 /\
    forall i seg,
      [segment "S1" "x"; segment "S2" "y"] !! i = Some seg ->
      exists group,
        groups !! i = Some group /\
        Nix.name group = Neo.name seg /\
        Nix.definition group = Neo.description seg.
Proof.
  apply (write_block_cascade_children io block_B1
           [segment "S1" "x"; segment "S2" "y"] two_root_store).
  reflexivity.
Defined.

(** ** The scenarios of the specification *)

(** Round trip: one root ["B1"]/["d1"] with the children ["S1"]/["x"] and
    ["S2"]/["y"], in that order, and no handle left open. *)
Example round_trip_B1 :
  write_block io block_B1 true empty_store
  = (Returns tt,
     Store [nix_block "B1" "d1" [nix_group "S1" "x"; nix_group "S2" "y"]] 0).
Proof. reflexivity. Qed.

(** What was written is equivalent to its source, at full depth. *)
Example written_B1_equivalent :
  _equals block_B1
    (nix_block "B1" "d1" [nix_group "S1" "x"; nix_group "S2" "y"]) true
  = Returns true.
Proof. reflexivity. Qed.

(** Different child counts give [False] even with matching attributes. *)
Example child_count_mismatch :
  _equals block_B1 (nix_block "B1" "d1" [nix_group "S1" "x"]) true
  = Returns false.
Proof. reflexivity. Qed.

(** A budget of one call is not enough for a block with segments. *)
Example budget_of_one_runs_out :
  _equals_fuel 1 block_B1
    (nix_block "B1" "d1" [nix_group "S1" "x"; nix_group "S2" "y"]) true
  = None.
Proof. reflexivity. Qed.

(** On a store whose roots all have a collection of groups,
    [write_segment] either returns with as many open handles as before, or
    raises [LookupError] with one more. *)
Lemma write_segment_handles self segment parent_block cascade st :
  forall r st',
    write_segment self segment parent_block cascade st = (r, st') ->
    Forall (fun b => is_Some (Nix.groups b)) (blocks st) ->
    (r = Returns tt /\ open_handles st' = open_handles st) \/
    ((exists msg, r = Raises (LookupError msg)) /\
     open_handles st' = S (open_handles st)).
Proof.
  intros r st' Hrun Hgroups.
  destruct (decide (Exists (attributes_match parent_block) (blocks st))) as [Hex|Hno].
  - destruct st as [[|b rest] h]; [inversion Hex|].
    cbn [blocks] in *. inversion Hgroups as [|? ? [gs Hg] _]; subst.
    rewrite (write_segment_found _ _ _ _ b gs rest h Hex Hg) in Hrun.
    injection Hrun as <- <-. left. split; reflexivity.
  - rewrite write_segment_not_found in Hrun.
    + injection Hrun as <- <-. right. split; [eexists; reflexivity|reflexivity].
    + apply Forall_forall. intros b Hb Heq. apply Hno.
      apply Exists_exists. exists b. split; [exact Hb|].
      rewrite equals_no_cascade in Heq. injection Heq as Heq.
      apply attributes_matchb_true, Heq.
Qed.

(** ** Further properties of [_equals] *)

(** X1. A mismatch of a mapped attribute ends the call with [False] before
    the collections are looked at, for either value of [cascade]; the
    [len(None)] of a one-sided collection is then never evaluated. *)
Theorem equals_attribute_mismatch_false (neo_obj : Neo.obj) (nix_obj : Nix.obj)
    (cascade : bool) :
  ~ attributes_match neo_obj nix_obj ->
  _equals neo_obj nix_obj cascade = Returns false.
Proof.
  intros H. rewrite _equals_unfold.
  apply attributes_matchb_false in H. rewrite H. reflexivity.
Qed.

Lemma equals_attribute_mismatch_false_witness :
  Neo.segments empty_block = Some [] /\
  Nix.groups (nix_group "B2" "d1") = None /\
  _equals empty_block (nix_group "B2" "d1") true = Returns false.
Proof.
  split; [reflexivity|]. split; [reflexivity|].
  apply (equals_attribute_mismatch_false empty_block (nix_group "B2" "d1") true).
  intros [H _]. discriminate H.
Defined.

(** X2. With matching attributes and both collections present, collections
    of different lengths give [False] without any child being compared:
    whatever the children are, the call does not raise. *)
Theorem equals_child_count_mismatch (neo_obj : Neo.obj) (nix_obj : Nix.obj)
    (ns : list Neo.obj) (xs : list Nix.obj) :
  attributes_match neo_obj nix_obj ->
  Neo.segments neo_obj = Some ns ->
  Nix.groups nix_obj = Some xs ->
  length ns <> length xs ->
  _equals neo_obj nix_obj true = Returns false.
Proof.
  intros Ha Hs Hg Hlen. rewrite _equals_unfold, Hs, Hg.
  apply attributes_matchb_true in Ha. rewrite Ha. cbn [negb compare_containers].
  apply Nat.eqb_neq in Hlen. rewrite Hlen. reflexivity.
Qed.

Lemma equals_child_count_mismatch_witness :
  _equals nested_source (nix_block "B1" "d1" []) true = Returns false.
Proof.
  apply (equals_child_count_mismatch nested_source (nix_block "B1" "d1" [])
           [Neo.Obj (Some "S1") (Some "x") (Some [segment "G1" "g"])] []).
  - split; reflexivity.
  - reflexivity.
  - reflexivity.
  - cbn. lia.
Defined.

Lemma zip_loop_first_failure {A B : Type} (f : A -> B -> outcome bool)
    ns1 xs1 n x ns2 xs2 :
  Forall2 (fun a b => f a b = Returns true) ns1 xs1 ->
  f n x <> Returns true ->
  zip_loop f (ns1 ++ n :: ns2) (xs1 ++ x :: xs2) = f n x.
Proof.
  intros Hpre Hn. induction Hpre as [|a b ns1 xs1 Hab _ IH]; cbn [app zip_loop].
  - destruct (f n x) as [[|]|e]; [congruence|reflexivity|reflexivity].
  - rewrite Hab. exact IH.
Qed.

(** X3. The children are compared in order and the first pair that is not
    equivalent decides: when the pairs before it all give [True], the
    result of the whole call is the result of that pair, [False] or the
    exception it raises, whatever the later pairs are. *)
Theorem equals_first_failing_child (neo_obj : Neo.obj) (nix_obj : Nix.obj)
    (ns1 ns2 : list Neo.obj) (n : Neo.obj) (xs1 xs2 : list Nix.obj) (x : Nix.obj) :
  attributes_match neo_obj nix_obj ->
  Neo.segments neo_obj = Some (ns1 ++ n :: ns2)%list ->
  Nix.groups nix_obj = Some (xs1 ++ x :: xs2)%list ->
  length ns2 = length xs2 ->
  Forall2 (fun a b => _equals a b true = Returns true) ns1 xs1 ->
  _equals n x true <> Returns true ->
  _equals neo_obj nix_obj true = _equals n x true.
Proof.
  intros Ha Hs Hg Hlen Hpre Hn. rewrite (_equals_unfold neo_obj), Hs, Hg.
  apply attributes_matchb_true in Ha. rewrite Ha. cbn [negb compare_containers].
  replace (Nat.eqb (length (ns1 ++ n :: ns2)) (length (xs1 ++ x :: xs2))) with true.
  - cbn [negb].
    apply (zip_loop_first_failure (fun a b => _equals a b true)); assumption.
  - symmetry. apply Nat.eqb_eq. rewrite !length_app. cbn [length].
    apply Forall2_length in Hpre. lia.
Qed.

Lemma equals_first_failing_child_witness :
  _equals (Neo.Obj (Some "B1") (Some "d1")
             (Some [segment "S1" "x"; empty_block; segment "S3" "z"]))
          (nix_block "B1" "d1"
             [nix_group "S1" "x"; nix_group "B1" "d1"; nix_group "other" "z"])
          true
  = _equals empty_block (nix_group "B1" "d1") true.
Proof.
  apply (equals_first_failing_child _ _
           [segment "S1" "x"] [segment "S3" "z"] empty_block
           [nix_group "S1" "x"] [nix_group "other" "z"] (nix_group "B1" "d1")).
  - split; reflexivity.
  - reflexivity.
  - reflexivity.
  - reflexivity.
  - repeat constructor.
  - discriminate.
Defined.

Lemma zip_loop_raises {A B : Type} (f : A -> B -> outcome bool) ns :
  forall xs e,
    zip_loop f ns xs = Raises e ->
    exists n x, n ∈ ns /\ f n x = Raises e.
Proof.
  induction ns as [|n ns IH]; intros [|x xs] e H; cbn [zip_loop] in H;
    try discriminate.
  destruct (f n x) as [[|]|e'] eqn:E; try discriminate.
  - destruct (IH xs e H) as (n' & x' & Hin & Hr).
    exists n', x'. split; [right; exact Hin|exact Hr].
  - injection H as ->. exists n, x. split; [left|exact E].
Qed.

Lemma equals_raises_cases neo_obj :
  forall nix_obj cascade e,
    _equals neo_obj nix_obj cascade = Raises e -> e = TypeError /\ cascade = true.
Proof.
  induction neo_obj as [n d|n d cs IH] using neo_obj_ind; intros nix_obj cascade e;
    rewrite _equals_unfold; cbn [Neo.segments];
    (destruct (attributes_matchb _ nix_obj); cbn [negb]; [|discriminate]);
    (destruct cascade; [|discriminate]);
    destruct (Nix.groups nix_obj) as [xs|]; cbn [compare_containers];
    try discriminate; try (intros [= <-]; split; reflexivity).
  destruct (negb (Nat.eqb (length cs) (length xs))); [discriminate|].
  intros H. apply zip_loop_raises in H as (c & x & Hin & Hr).
  rewrite Forall_forall in IH. exact (IH c Hin x true e Hr).
Qed.

(** X4. The only exception [_equals] ever raises is [TypeError], and only
    a cascading call can raise it. *)
Theorem equals_raises_only_type_error (neo_obj : Neo.obj) (nix_obj : Nix.obj)
    (cascade : bool) (e : exn) :
  _equals neo_obj nix_obj cascade = Raises e ->
  e = TypeError /\ cascade = true.
Proof. apply equals_raises_cases. Qed.

Lemma equals_raises_only_type_error_witness :
  TypeError = TypeError /\ true = true.
Proof.
  apply (equals_raises_only_type_error nested_source
           (nix_block "B1" "d1" [nix_group "S1" "x"]) true TypeError).
  reflexivity.
Defined.

Lemma zip_loop_map_right {A B : Type} (f : A -> B -> outcome bool) (g : B -> B) ns :
  Forall (fun n => forall x, f n (g x) = f n x) ns ->
  forall xs, zip_loop f ns (map g xs) = zip_loop f ns xs.
Proof.
  induction 1 as [|n ns Hn _ IH]; intros [|x xs]; cbn [map zip_loop];
    try reflexivity.
  rewrite Hn, IH. reflexivity.
Qed.

Lemma equals_retag_any f neo_obj :
  forall nix_obj cascade,
    _equals neo_obj (retag f nix_obj) cascade = _equals neo_obj nix_obj cascade.
Proof.
  induction neo_obj as [n d|n d cs IH] using neo_obj_ind;
    intros [xn xt xd xg] cascade; rewrite !_equals_unfold;
    cbn [retag Neo.segments Nix.groups];
    change (attributes_matchb ?o (Nix.Obj xn (f xt) xd ?g))
      with (attributes_matchb o (Nix.Obj xn xt xd xg));
    (destruct (attributes_matchb _ _); cbn [negb]; [|reflexivity]);
    (destruct cascade; [|reflexivity]);
    destruct xg as [xs|]; cbn [option_map compare_containers]; try reflexivity.
  rewrite length_map.
  destruct (negb (Nat.eqb (length cs) (length xs))); [reflexivity|].
  apply zip_loop_map_right.
  eapply Forall_impl; [exact IH|]. cbn beta. intros c Hc x. apply Hc.
Qed.

(** X5. [_equals] never looks at the [type] of a NIX entity: rewriting the
    type tags throughout the target tree leaves the result unchanged. *)
Theorem equals_ignores_type (f : string -> string) (neo_obj : Neo.obj)
    (nix_obj : Nix.obj) (cascade : bool) :
  _equals neo_obj (retag f nix_obj) cascade = _equals neo_obj nix_obj cascade.
Proof. apply equals_retag_any. Qed.

(** ** Further properties of the writer *)

Lemma write_block_plain self neo_block st :
  write_block self neo_block false st
  = (Returns tt,
     Store [Nix.Obj (Neo.name neo_block) "neo.block" (Neo.description neo_block)
              (Some [])] (open_handles st)).
Proof. reflexivity. Qed.

Lemma write_block_no_segments self neo_block st :
  Neo.segments neo_block = None ->
  write_block self neo_block true st
  = (Raises AttributeError,
     Store [Nix.Obj (Neo.name neo_block) "neo.block" (Neo.description neo_block)
              (Some [])] (S (open_handles st))).
Proof.
  intros Hs. unfold write_block, bind at 1 2 3 4, File_open, create_block,
    set_block_definition, update_block.
  cbn [blocks open_handles length app alter list_alter Nix.name Nix.type Nix.groups].
  rewrite Hs. reflexivity.
Qed.

Lemma same_labels_groups segs segs' :
  Forall2 same_labels segs segs' ->
  map group_of_segment segs = map group_of_segment segs'.
Proof.
  induction 1 as [|s s' segs segs' [Hn Hd] _ IH]; [reflexivity|].
  cbn [map]. rewrite IH. unfold group_of_segment. rewrite Hn, Hd. reflexivity.
Qed.

Lemma groups_of_segments_shape segs :
  Forall (fun g => Nix.type g = "neo.segment" /\ Nix.groups g = None)
    (map group_of_segment segs).
Proof.
  induction segs as [|s segs IH]; constructor; [split; reflexivity|exact IH].
Qed.

(** The comparison of a block with the root written from it, child by
    child: the pairs are equivalent until a segment with a collection of
    its own meets its group, which has none. *)
Lemma zip_loop_written segs :
  zip_loop (fun n x => _equals n x true) segs (map group_of_segment segs)
  = if existsb has_collection segs
    then Raises TypeError else Returns true.
Proof.
  induction segs as [|s segs IH]; [reflexivity|].
  cbn [map zip_loop existsb]. rewrite _equals_unfold.
  replace (attributes_matchb s (group_of_segment s)) with true
    by (symmetry; apply attributes_matchb_true; split; reflexivity).
  cbn [negb group_of_segment Nix.groups].
  unfold has_collection at 1.
  destruct (Neo.segments s) as [cs|]; cbn [compare_containers].
  - rewrite bool_decide_eq_true_2 by (eexists; reflexivity). reflexivity.
  - rewrite bool_decide_eq_false_2 by (intros [? ?]; discriminate).
    cbn [orb]. exact IH.
Qed.

Lemma no_collection_anywhere segs :
  Forall (fun s => Neo.segments s = None) segs ->
  existsb has_collection segs = false.
Proof.
  induction 1 as [|s segs Hl _ IH]; [reflexivity|].
  cbn [existsb]. rewrite IH. unfold has_collection. rewrite Hl.
  rewrite bool_decide_eq_false_2 by (intros [? ?]; discriminate). reflexivity.
Qed.

Lemma collection_somewhere segs :
  Exists (fun s => is_Some (Neo.segments s)) segs ->
  existsb has_collection segs = true.
Proof.
  induction 1 as [s segs Hh|s segs _ IH]; cbn [existsb].
  - unfold has_collection. rewrite bool_decide_eq_true_2 by exact Hh. reflexivity.
  - rewrite IH. apply orb_true_r.
Qed.

Lemma equals_written neo_block segs :
  Neo.segments neo_block = Some segs ->
  _equals neo_block
    (Nix.Obj (Neo.name neo_block) "neo.block" (Neo.description neo_block)
       (Some (map group_of_segment segs))) true
  = if existsb has_collection segs
    then Raises TypeError else Returns true.
Proof.
  intros Hs. rewrite _equals_unfold, Hs.
  replace (attributes_matchb neo_block _) with true
    by (symmetry; apply attributes_matchb_true; split; reflexivity).
  cbn [negb Nix.groups compare_containers].
  rewrite length_map, Nat.eqb_refl. cbn [negb]. apply zip_loop_written.
Qed.

(** X6. Write, then compare: after [write_block] with cascade on a block
    whose segments have no collection of their own, the root in the store
    is equivalent to the block under the cascading [_equals]. *)
Theorem write_block_then_equals (self : NixIO) (neo_block : Neo.obj)
    (segs : list Neo.obj) (st : store) :
  Neo.segments neo_block = Some segs ->
  Forall (fun s => Neo.segments s = None) segs ->
  exists root,
    write_block self neo_block true st = (Returns tt, Store [root] (open_handles st)) /\
    _equals neo_block root true = Returns true.
Proof.
  intros Hs Hleaf. eexists. split; [apply write_block_cascade, Hs|].
  rewrite (equals_written neo_block segs Hs), (no_collection_anywhere segs Hleaf).
  reflexivity.
Qed.

Lemma write_block_then_equals_witness :
  exists root,
    write_block io block_B1 true two_root_store = (Returns tt, Store [root] 0) /\
    _equals block_B1 root true = Returns true.
Proof.
  apply (write_block_then_equals io block_B1
           [segment "S1" "x"; segment "S2" "y"] two_root_store).
  - reflexivity.
  - repeat constructor.
Defined.

(** X7. The writer drops what lies below a segment, and the comparison
    does not forgive it: when some segment of the block has a collection of
    its own, comparing the block with the root just written raises
    [TypeError]. *)
Theorem write_block_then_equals_nested (self : NixIO) (neo_block : Neo.obj)
    (segs : list Neo.obj) (st : store) :
  Neo.segments neo_block = Some segs ->
  Exists (fun s => is_Some (Neo.segments s)) segs ->
  exists root,
    write_block self neo_block true st = (Returns tt, Store [root] (open_handles st)) /\
    _equals neo_block root true = Raises TypeError.
Proof.
  intros Hs Hex. eexists. split; [apply write_block_cascade, Hs|].
  rewrite (equals_written neo_block segs Hs), (collection_somewhere segs Hex).
  reflexivity.
Qed.

Lemma write_block_then_equals_nested_witness :
  exists root,
    write_block io nested_source true empty_store = (Returns tt, Store [root] 0) /\
    _equals nested_source root true = Raises TypeError.
Proof.
  apply (write_block_then_equals_nested io nested_source
           [Neo.Obj (Some "S1") (Some "x") (Some [segment "G1" "g"])] empty_store).
  - reflexivity.
  - left. eexists. reflexivity.
Defined.

(** X8. [write_block] never raises the [LookupError] of [write_segment]:
    every segment finds the root that the same call has just written. *)
Theorem write_block_never_lookup_error (self : NixIO) (neo_block : Neo.obj)
    (cascade : bool) (st : store) (msg : string) :
  fst (write_block self neo_block cascade st) <> Raises (LookupError msg).
Proof.
  destruct cascade.
  - destruct (Neo.segments neo_block) as [segs|] eqn:Hs.
    + rewrite (write_block_cascade self neo_block segs st Hs). discriminate.
    + rewrite (write_block_no_segments self neo_block st Hs). discriminate.
  - rewrite write_block_plain. discriminate.
Qed.

(** X9. [write_block] with cascade on an object without a [segments]
    collection fails only after the overwrite: the call raises, the prior
    content is gone, the store holds the new root without children, and the
    handle opened by the call is left open. *)
Theorem write_block_cascade_without_segments (self : NixIO) (neo_block : Neo.obj)
    (st : store) :
  Neo.segments neo_block = None ->
  exists e root,
    write_block self neo_block true st
    = (Raises e, Store [root] (S (open_handles st))) /\
    Nix.name root = Neo.name neo_block /\
    Nix.definition root = Neo.description neo_block /\
    Nix.groups root = Some [].
Proof.
  intros Hs. do 2 eexists. split; [apply write_block_no_segments, Hs|].
  repeat split.
Qed.

Lemma write_block_cascade_without_segments_witness :
  exists e root,
    write_block io (segment "S1" "x") true two_root_store
    = (Raises e, Store [root] 1) /\
    Nix.name root = Some "S1" /\
    Nix.definition root = Some "x" /\
    Nix.groups root = Some [].
Proof.
  apply (write_block_cascade_without_segments io (segment "S1" "x") two_root_store).
  reflexivity.
Defined.

(** X10. Nothing of the prior content survives [write_block]: outcome and
    roots after the call are the same from any two stores, with or without
    cascade and also when the call raises. *)
Theorem write_block_overwrites (self : NixIO) (neo_block : Neo.obj)
    (cascade : bool) (st1 st2 : store) :
  fst (write_block self neo_block cascade st1)
  = fst (write_block self neo_block cascade st2) /\
  blocks (snd (write_block self neo_block cascade st1))
  = blocks (snd (write_block self neo_block cascade st2)).
Proof.
  destruct cascade.
  - destruct (Neo.segments neo_block) as [segs|] eqn:Hs.
    + rewrite !(write_block_cascade self neo_block segs _ Hs). split; reflexivity.
    + rewrite !(write_block_no_segments self neo_block _ Hs). split; reflexivity.
  - rewrite !write_block_plain. split; reflexivity.
Qed.

(** X11. Writing the block without cascade and then each of its segments
    with [write_segment], in order, leaves the store exactly as
    [write_block] with cascade does. *)
Theorem write_block_then_segments (self : NixIO) (neo_block : Neo.obj)
    (segs : list Neo.obj) (st : store) :
  Neo.segments neo_block = Some segs ->
  (write_block self neo_block false ;;;
   for_each segs (fun segment => write_segment self segment neo_block true)) st
  = write_block self neo_block true st.
Proof.
  intros Hs. unfold bind at 1. rewrite write_block_plain.
  rewrite (for_each_write_segment self neo_block segs _ [] _);
    [|split; reflexivity|reflexivity].
  rewrite (write_block_cascade self neo_block segs st Hs). reflexivity.
Qed.

Lemma write_block_then_segments_witness :
  (write_block io block_B1 false ;;;
   for_each [segment "S1" "x"; segment "S2" "y"]
     (fun s => write_segment io s block_B1 true)) two_root_store
  = write_block io block_B1 true two_root_store.
Proof.
  apply (write_block_then_segments io block_B1
           [segment "S1" "x"; segment "S2" "y"] two_root_store).
  reflexivity.
Defined.

(** X12. Only the name and the description of a segment are written: two
    blocks with the same name and description whose segments agree, in
    order, on name and description are written to the same store, whatever
    the segments hold below. *)
Theorem write_block_one_level (self : NixIO) (neo_block neo_block' : Neo.obj)
    (segs segs' : list Neo.obj) (st : store) :
  Neo.name neo_block = Neo.name neo_block' ->
  Neo.description neo_block = Neo.description neo_block' ->
  Neo.segments neo_block = Some segs ->
  Neo.segments neo_block' = Some segs' ->
  Forall2 same_labels segs segs' ->
  write_block self neo_block true st = write_block self neo_block' true st.
Proof.
  intros Hn Hd Hs Hs' Hl.
  rewrite (write_block_cascade self neo_block segs st Hs),
    (write_block_cascade self neo_block' segs' st Hs').
  rewrite Hn, Hd, (same_labels_groups segs segs' Hl). reflexivity.
Qed.

Lemma write_block_one_level_witness :
  write_block io nested_source true empty_store
  = write_block io (Neo.Obj (Some "B1") (Some "d1") (Some [segment "S1" "x"]))
      true empty_store.
Proof.
  apply (write_block_one_level io nested_source
           (Neo.Obj (Some "B1") (Some "d1") (Some [segment "S1" "x"]))
           [Neo.Obj (Some "S1") (Some "x") (Some [segment "G1" "g"])]
           [segment "S1" "x"] empty_store); try reflexivity.
  repeat constructor.
Defined.

(** X13. Whatever the block, the flag and the outcome, every root that
    [write_block] leaves in the store is tagged ["neo.block"] and its
    groups are tagged ["neo.segment"] and have no collection of their own. *)
Theorem write_block_written_shape (self : NixIO) (neo_block : Neo.obj)
    (cascade : bool) (st : store) :
  Forall written_root (blocks (snd (write_block self neo_block cascade st))).
Proof.
  destruct cascade.
  - destruct (Neo.segments neo_block) as [segs|] eqn:Hs.
    + rewrite (write_block_cascade self neo_block segs st Hs).
      repeat constructor. eexists. split; [reflexivity|].
      apply groups_of_segments_shape.
    + rewrite (write_block_no_segments self neo_block st Hs).
      repeat constructor. eexists. split; [reflexivity|constructor].
  - rewrite write_block_plain.
    repeat constructor. eexists. split; [reflexivity|constructor].
Qed.

Lemma create_under_first_root_no_groups nix_name nix_type nix_definition b rest h :
  Nix.groups b = None ->
  create_under_first_root nix_name nix_type nix_definition (Store (b :: rest) h)
  = (Raises AttributeError, Store (b :: rest) h).
Proof.
  intros Hg. unfold create_under_first_root, bind, blocks_getitem, create_group.
  cbn. rewrite Hg. reflexivity.
Qed.

Lemma write_segment_found_no_groups self segment parent_block cascade b rest h :
  Exists (attributes_match parent_block) (b :: rest) ->
  Nix.groups b = None ->
  write_segment self segment parent_block cascade (Store (b :: rest) h)
  = (Raises AttributeError, Store (b :: rest) (S h)).
Proof.
  intros Hex Hg. unfold write_segment, bind at 1 2 3, File_open, File_blocks.
  cbn [blocks open_handles].
  rewrite blocks_loop_found by exact Hex.
  rewrite (create_under_first_root_no_groups _ _ _ b rest (S h) Hg).
  reflexivity.
Qed.

Lemma no_match_not_equal parent_block nix_blocks :
  ~ Exists (attributes_match parent_block) nix_blocks ->
  Forall (fun b => _equals parent_block b false <> Returns true) nix_blocks.
Proof.
  intros Hno. apply Forall_forall. intros b Hb Heq. apply Hno.
  apply Exists_exists. exists b. split; [exact Hb|].
  rewrite equals_no_cascade in Heq. injection Heq as Heq.
  apply attributes_matchb_true, Heq.
Qed.

Lemma grown_by_refl segment b : grown_by segment b b.
Proof. repeat split. left. reflexivity. Qed.

Lemma grown_by_same segment (l : list Nix.obj) : Forall2 (grown_by segment) l l.
Proof. induction l; constructor; [apply grown_by_refl|assumption]. Qed.

(** X14. What [write_segment] never does, on any store and whatever its
    outcome: it neither adds nor removes a root, it leaves every root after
    the first as it was, and of the first root it keeps name, type,
    definition and the groups already there, adding at most the one group
    of the segment at the end. *)
Theorem write_segment_frame (self : NixIO) (segment parent_block : Neo.obj)
    (cascade : bool) (st : store) :
  Forall2 (grown_by segment) (blocks st)
    (blocks (snd (write_segment self segment parent_block cascade st))) /\
  drop 1 (blocks (snd (write_segment self segment parent_block cascade st)))
  = drop 1 (blocks st).
Proof.
  destruct (decide (Exists (attributes_match parent_block) (blocks st))) as [Hex|Hno].
  - destruct st as [[|b rest] h]; [inversion Hex|]. cbn [blocks] in *.
    destruct (Nix.groups b) as [gs|] eqn:Hg.
    + rewrite (write_segment_found _ _ _ _ b gs rest h Hex Hg). cbn [snd blocks].
      split; [|reflexivity]. constructor; [|apply grown_by_same].
      unfold grown_by, with_group. cbn. repeat split.
      right. exists gs. split; [exact Hg|reflexivity].
    + rewrite (write_segment_found_no_groups _ _ _ _ b rest h Hex Hg).
      cbn [snd blocks]. split; [apply grown_by_same|reflexivity].
  - rewrite (write_segment_not_found _ _ _ _ st (no_match_not_equal _ _ Hno)).
    cbn [snd blocks]. split; [apply grown_by_same|reflexivity].
Qed.

(** X15. On a store whose roots all have a collection of groups,
    [write_segment] returns normally exactly when some root has the name
    and the definition that the parent block has as name and description;
    the children of the parent block play no part. *)
Theorem write_segment_returns_iff (self : NixIO) (segment parent_block : Neo.obj)
    (cascade : bool) (st : store) :
  Forall (fun b => is_Some (Nix.groups b)) (blocks st) ->
  (fst (write_segment self segment parent_block cascade st) = Returns tt <->
   Exists (attributes_match parent_block) (blocks st)).
Proof.
  intros Hgroups.
  destruct (decide (Exists (attributes_match parent_block) (blocks st))) as [Hex|Hno].
  - destruct st as [[|b rest] h]; [inversion Hex|]. cbn [blocks] in *.
    inversion Hgroups as [|? ? [gs Hg] _]; subst.
    rewrite (write_segment_found _ _ _ _ b gs rest h Hex Hg). cbn [fst]. tauto.
  - rewrite (write_segment_not_found _ _ _ _ st (no_match_not_equal _ _ Hno)).
    cbn [fst]. split; [discriminate|contradiction].
Qed.

Lemma write_segment_returns_iff_witness :
  fst (write_segment io (segment "S1" "x") block_B1 true two_root_store) = Returns tt <->
  Exists (attributes_match block_B1) (blocks two_root_store).
Proof.
  apply (write_segment_returns_iff io (segment "S1" "x") block_B1 true two_root_store).
  repeat constructor; eexists; reflexivity.
Defined.

(** X16. When the root at position 0 is equivalent to the parent block and
    has a collection of groups, [write_segment] returns normally, the group
    of the segment is appended to that root, the groups it had and the
    other roots are unchanged, and no handle is left open. *)
Theorem write_segment_first_root_matches (self : NixIO)
    (segment parent_block : Neo.obj) (cascade : bool)
    (b : Nix.obj) (gs rest : list Nix.obj) (h : nat) :
  attributes_match parent_block b ->
  Nix.groups b = Some gs ->
  write_segment self segment parent_block cascade (Store (b :: rest) h)
  = (Returns tt,
     Store (Nix.Obj (Nix.name b) (Nix.type b) (Nix.definition b)
              (Some (gs ++ [Nix.Obj (Neo.name segment) "neo.segment"
                              (Neo.description segment) None])%list) :: rest) h).
Proof.
  intros Ha Hg. apply write_segment_found; [left; exact Ha|exact Hg].
Qed.

Lemma write_segment_first_root_matches_witness :
  write_segment io (segment "S3" "z") block_B1 true
    (Store [nix_block "B1" "d1" [nix_group "S1" "x"]; nix_block "B0" "d0" []] 0)
  = (Returns tt,
     Store [nix_block "B1" "d1" [nix_group "S1" "x"; nix_group "S3" "z"];
            nix_block "B0" "d0" []] 0).
Proof.
  apply (write_segment_first_root_matches io (segment "S3" "z") block_B1 true
           (nix_block "B1" "d1" [nix_group "S1" "x"]) [nix_group "S1" "x"]
           [nix_block "B0" "d0" []] 0).
  - split; reflexivity.
  - reflexivity.
Defined.

Lemma write_segment_single_root_iff self segment parent_block cascade root gs h :
  Nix.groups root = Some gs ->
  (fst (write_segment self segment parent_block cascade (Store [root] h)) = Returns tt
   <-> attributes_match parent_block root).
Proof.
  intros Hg.
  destruct (decide (attributes_match parent_block root)) as [Ha|Hno].
  - rewrite (write_segment_found _ _ _ _ root gs [] h); [|left; exact Ha|exact Hg].
    cbn [fst]. tauto.
  - rewrite write_segment_not_found.
    + cbn [fst]. split; [discriminate|contradiction].
    + cbn [blocks]. apply no_match_not_equal. intros Hex.
      inversion Hex as [? ? Ha|? ? Ha]; subst; [contradiction|inversion Ha].
Qed.

(** X17. After a [write_block] that returned normally, [write_segment]
    into the same store returns normally exactly for a parent that has the
    name and the description of the block written; for any other parent it
    raises. *)
Theorem write_segment_after_write_block (self : NixIO) (neo_block : Neo.obj)
    (cascade : bool) (st st1 : store)
    (segment parent_block : Neo.obj) (cascade' : bool) :
  write_block self neo_block cascade st = (Returns tt, st1) ->
  (fst (write_segment self segment parent_block cascade' st1) = Returns tt <->
   Neo.name parent_block = Neo.name neo_block /\
   Neo.description parent_block = Neo.description neo_block).
Proof.
  intros Hw. destruct cascade.
  - destruct (Neo.segments neo_block) as [segs|] eqn:Hs.
    + rewrite (write_block_cascade self neo_block segs st Hs) in Hw.
      injection Hw as <-.
      exact (write_segment_single_root_iff self segment parent_block cascade'
               (Nix.Obj (Neo.name neo_block) "neo.block" (Neo.description neo_block)
                  (Some (map group_of_segment segs)))
               (map group_of_segment segs) (open_handles st) eq_refl).
    + rewrite (write_block_no_segments self neo_block st Hs) in Hw. discriminate.
  - rewrite write_block_plain in Hw. injection Hw as <-.
    exact (write_segment_single_root_iff self segment parent_block cascade'
             (Nix.Obj (Neo.name neo_block) "neo.block" (Neo.description neo_block)
                (Some []))
             [] (open_handles st) eq_refl).
Qed.

Lemma write_segment_after_write_block_witness :
  fst (write_segment io (segment "S3" "z") empty_block false
         (Store [nix_block "B1" "d1" [nix_group "S1" "x"; nix_group "S2" "y"]] 0))
  = Returns tt <->
  Neo.name empty_block = Neo.name block_B1 /\
  Neo.description empty_block = Neo.description block_B1.
Proof.
  apply (write_segment_after_write_block io block_B1 true two_root_store
           (Store [nix_block "B1" "d1" [nix_group "S1" "x"; nix_group "S2" "y"]] 0)
           (segment "S3" "z") empty_block false).
  reflexivity.
Defined.

(** X18. The handle that [write_segment] opens is closed exactly when the
    call returns: after a normal return as many handles are open as before,
    after any exception one more. *)
Theorem write_segment_handle_balance (self : NixIO) (segment parent_block : Neo.obj)
    (cascade : bool) (st : store) :
  open_handles (snd (write_segment self segment parent_block cascade st))
  = match fst (write_segment self segment parent_block cascade st) with
    | Returns _ => open_handles st
    | Raises _ => S (open_handles st)
    end.
Proof.
  destruct (decide (Exists (attributes_match parent_block) (blocks st))) as [Hex|Hno].
  - destruct st as [[|b rest] h]; [inversion Hex|]. cbn [blocks] in *.
    destruct (Nix.groups b) as [gs|] eqn:Hg.
    + rewrite (write_segment_found _ _ _ _ b gs rest h Hex Hg). reflexivity.
    + rewrite (write_segment_found_no_groups _ _ _ _ b rest h Hex Hg). reflexivity.
  - rewrite (write_segment_not_found _ _ _ _ st (no_match_not_equal _ _ Hno)).
    reflexivity.
Qed.

(** X19. [nix_file.blocks[0]] is evaluated only inside the loop over the
    roots, so on a store without roots it is never reached: whatever the
    store, [write_segment] raises neither [IndexError] nor [TypeError]. *)
Theorem write_segment_index_safe (self : NixIO) (segment parent_block : Neo.obj)
    (cascade : bool) (st : store) :
  fst (write_segment self segment parent_block cascade st) <> Raises IndexError /\
  fst (write_segment self segment parent_block cascade st) <> Raises TypeError.
Proof.
  destruct (decide (Exists (attributes_match parent_block) (blocks st))) as [Hex|Hno].
  - destruct st as [[|b rest] h]; [inversion Hex|]. cbn [blocks] in *.
    destruct (Nix.groups b) as [gs|] eqn:Hg.
    + rewrite (write_segment_found _ _ _ _ b gs rest h Hex Hg).
      split; discriminate.
    + rewrite (write_segment_found_no_groups _ _ _ _ b rest h Hex Hg).
      split; discriminate.
  - rewrite (write_segment_not_found _ _ _ _ st (no_match_not_equal _ _ Hno)).
    split; discriminate.
Qed.

(** X20. The handle that [write_block] opens is closed exactly when the
    call returns: after a normal return as many handles are open as before,
    after an exception one more. *)
Theorem write_block_handle_balance (self : NixIO) (neo_block : Neo.obj)
    (cascade : bool) (st : store) :
  open_handles (snd (write_block self neo_block cascade st))
  = match fst (write_block self neo_block cascade st) with
    | Returns _ => open_handles st
    | Raises _ => S (open_handles st)
    end.
Proof.
  destruct cascade.
  - destruct (Neo.segments neo_block) as [segs|] eqn:Hs.
    + rewrite (write_block_cascade self neo_block segs st Hs). reflexivity.
    + rewrite (write_block_no_segments self neo_block st Hs). reflexivity.
  - rewrite write_block_plain. reflexivity.
Qed.
